(** * Least-squares line fit: a model of [DataAnalysis/Fitting/least_squares.py]

    The Python function [least_squares(x, y)] takes two one-dimensional
    numpy arrays of floats, checks two guards, and returns the list
    [[a, b, sigma, sigma_a, sigma_b]].  On a failed guard it prints a
    message and calls [sys.exit()].

    Conventions of the model:
    - a float is a real number ([R]); arithmetic is exact, as the
      properties proved below are stated over the reals;
    - a Python [int] is a [Z];
    - a one-dimensional numpy array is a [list R]; elementwise
      operations between two arrays follow numpy's broadcasting rule
      and raise [ValueError] on incompatible shapes;
    - the body is written in a small state-and-exception monad: the
      state holds what has been printed on standard output and the
      local variables bound so far, the exception is [SystemExit]
      (from [sys.exit()]) or [ValueError]. *)

From Stdlib Require Import String.
From Stdlib Require Import Reals.Reals Lra Psatz ZArith List Bool Lia.
From Stdlib Require Import Sorting.Permutation.
Import ListNotations.

Open Scope string_scope.
Open Scope list_scope.
Open Scope R_scope.

(** ** Values, exceptions, interpreter state *)

Inductive value : Type :=
| VInt (n : Z)
| VFloat (r : R)
| VArray (a : list R).

Inductive exn : Type :=
| SystemExit (code : option Z)
| ValueError (msg : string).

Inductive result (A : Type) : Type :=
| Done (a : A)
| Raised (e : exn).

Arguments Done {A} a.
Arguments Raised {A} e.

Record state : Type := mkState {
  stdout : list string;
  locals : list (string * value)
}.

Module Py.

Definition M (A : Type) : Type := state -> state * result A.

Definition ret {A} (a : A) : M A := fun st => (st, Done a).

Definition bind {A B} (m : M A) (k : A -> M B) : M B :=
  fun st =>
    match m st with
    | (st', Done a) => k a st'
    | (st', Raised e) => (st', Raised e)
    end.

Definition raise {A} (e : exn) : M A := fun st => (st, Raised e).

(** [print(s)]: one more line on standard output. *)
Definition print (s : string) : M unit :=
  fun st => (mkState (stdout st ++ [s]) (locals st), Done tt).

(** [sys.exit()] raises [SystemExit] with no exit status. *)
Definition sys_exit {A} : M A := raise (SystemExit None).

(** Entering a function: a fresh frame holding the parameters. *)
Definition enter (params : list (string * value)) : M unit :=
  fun st => (mkState (stdout st) params, Done tt).

(** [name = v]: binds a local variable. *)
Definition assign (name : string) (v : value) : M unit :=
  fun st => (mkState (stdout st) (locals st ++ [(name, v)]), Done tt).

(** An operation that may fail with [ValueError]. *)
Definition lift_broadcast {A} (o : option A) : M A :=
  match o with
  | Some a => ret a
  | None => raise (ValueError "operands could not be broadcast together")
  end.

End Py.

Notation "c1 ;; c2" := (Py.bind c1 (fun _ => c2))
  (at level 61, right associativity).
Notation "v <- c1 ;; c2" := (Py.bind c1 (fun v => c2))
  (at level 61, c1 at next level, right associativity).
Notation "name ::= e" := (Py.assign name e) (at level 60).

(** ** numpy operations on one-dimensional arrays *)

(** [np.sum(a)] *)
Definition np_sum (a : list R) : R := fold_right Rplus 0 a.

Fixpoint zip_with (f : R -> R -> R) (u v : list R) : list R :=
  match u, v with
  | p :: u', q :: v' => f p q :: zip_with f u' v'
  | _, _ => []
  end.

(** Elementwise binary operation with numpy's broadcasting for shapes
    [(n,)] and [(m,)]: equal lengths go pointwise, a length-one array
    is stretched, anything else is an error. *)
Definition broadcast (f : R -> R -> R) (u v : list R) : option (list R) :=
  if Nat.eqb (length u) (length v) then Some (zip_with f u v)
  else match u, v with
       | [c], _ => Some (map (f c) v)
       | _, [c] => Some (map (fun e => f e c) u)
       | _, _ => None
       end.

(** [a ** 2] on an array *)
Definition np_square (a : list R) : list R := map (fun v => v ^ 2) a.

(** [c + b * a] for scalars [c], [b] and an array [a] *)
Definition np_affine (c b : R) (a : list R) : list R :=
  map (fun v => c + b * v) a.

(** The threshold of the second guard, [0.000001]. *)
Definition epsilon : R := 0.000001.

Definition msg_few_points : string := "Error! Need at least two data points!".
Definition msg_zero_denom : string := "Error! Denomominator is zero!".

(** ** The function *)

Definition least_squares (x y : list R) : Py.M (list R) :=
  Py.enter [("x", VArray x); ("y", VArray y)] ;;
  let N := Z.of_nat (length x) in
  "N" ::= VInt N ;;
  if (N <=? 2)%Z then
    Py.print msg_few_points ;;
    Py.sys_exit
  else
    let s_x := np_sum x in
    "s_x" ::= VFloat s_x ;;
    let s_y := np_sum y in
    "s_y" ::= VFloat s_y ;;
    let s_xx := np_sum (np_square x) in
    "s_xx" ::= VFloat s_xx ;;
    xy <- Py.lift_broadcast (broadcast Rmult x y) ;;
    let s_xy := np_sum xy in
    "s_xy" ::= VFloat s_xy ;;
    let denom := IZR N * s_xx - s_x ^ 2 in
    "denom" ::= VFloat denom ;;
    if Rlt_dec (Rabs denom) epsilon then
      Py.print msg_zero_denom ;;
      Py.sys_exit
    else
      let a := (s_xx * s_y - s_x * s_xy) / denom in
      "a" ::= VFloat a ;;
      let b := (IZR N * s_xy - s_x * s_y) / denom in
      "b" ::= VFloat b ;;
      if (N >? 2)%Z then
        res <- Py.lift_broadcast (broadcast Rminus y (np_affine a b x)) ;;
        let sigma := sqrt (np_sum (np_square res) / IZR (N - 2)) in
        "sigma" ::= VFloat sigma ;;
        let sigma_a := sqrt (sigma ^ 2 * s_xx / denom) in
        "sigma_a" ::= VFloat sigma_a ;;
        let sigma_b := sqrt (sigma ^ 2 * IZR N / denom) in
        "sigma_b" ::= VFloat sigma_b ;;
        Py.ret [a; b; sigma; sigma_a; sigma_b]
      else
        let sigma := 0 in
        "sigma" ::= VFloat sigma ;;
        let sigma_a := 0 in
        "sigma_a" ::= VFloat sigma_a ;;
        let sigma_b := 0 in
        "sigma_b" ::= VFloat sigma_b ;;
        Py.ret [a; b; sigma; sigma_a; sigma_b].

(** ** The values the body binds, as functions of the arguments

    Each definition repeats the right-hand side of one assignment of
    the source; [least_squares_returns] and the lemmas before it check
    them against [least_squares]. *)

Module Fit.

(** The array an elementwise operation yields when the shapes are
    compatible. *)
Definition array_of (o : option (list R)) : list R :=
  match o with Some l => l | None => [] end.

Definition N (x : list R) : Z := Z.of_nat (length x).
Definition s_x (x : list R) : R := np_sum x.
Definition s_y (y : list R) : R := np_sum y.
Definition s_xx (x : list R) : R := np_sum (np_square x).
Definition s_xy (x y : list R) : R :=
  np_sum (array_of (broadcast Rmult x y)).
Definition denom (x : list R) : R := IZR (N x) * s_xx x - s_x x ^ 2.

Definition a (x y : list R) : R :=
  (s_xx x * s_y y - s_x x * s_xy x y) / denom x.
Definition b (x y : list R) : R :=
  (IZR (N x) * s_xy x y - s_x x * s_y y) / denom x.

(** [y - (a + b * x)] *)
Definition residuals (x y : list R) : list R :=
  array_of (broadcast Rminus y (np_affine (a x y) (b x y) x)).

Definition sigma (x y : list R) : R :=
  sqrt (np_sum (np_square (residuals x y)) / IZR (N x - 2)).
Definition sigma_a (x y : list R) : R :=
  sqrt (sigma x y ^ 2 * s_xx x / denom x).
Definition sigma_b (x y : list R) : R :=
  sqrt (sigma x y ^ 2 * IZR (N x) / denom x).

(** The frame after each block of the body. *)
Definition frame_N (x y : list R) : list (string * value) :=
  [("x", VArray x); ("y", VArray y); ("N", VInt (N x))].
Definition frame_stats (x y : list R) : list (string * value) :=
  frame_N x y ++
  [("s_x", VFloat (s_x x)); ("s_y", VFloat (s_y y));
   ("s_xx", VFloat (s_xx x)); ("s_xy", VFloat (s_xy x y));
   ("denom", VFloat (denom x))].
Definition frame_all (x y : list R) : list (string * value) :=
  frame_stats x y ++
  [("a", VFloat (a x y)); ("b", VFloat (b x y));
   ("sigma", VFloat (sigma x y)); ("sigma_a", VFloat (sigma_a x y));
   ("sigma_b", VFloat (sigma_b x y))].

(** Which arm of [if N > 2: ... else: ...] (lines 43-50) runs. *)
Inductive arm : Type := Computed | Zeroed.
Definition uncertainty_arm (x : list R) : arm :=
  if (N x >? 2)%Z then Computed else Zeroed.

End Fit.

(** Names bound in a frame. *)
Definition bound (fr : list (string * value)) : list string := map fst fr.

(** ** The quantities of the specification, as sums over indices *)

Module Spec.

(** [Sigma n f] is the sum of [f i] for [i < n]. *)
Definition Sigma (n : nat) (f : nat -> R) : R :=
  fold_right Rplus 0 (map f (seq 0 n)).

Section Data.
Variables x y : list R.

Definition xi (i : nat) : R := nth i x 0.
Definition yi (i : nat) : R := nth i y 0.
Definition N : nat := length x.

Definition s_x : R := Sigma N xi.
Definition s_y : R := Sigma N yi.
Definition s_xx : R := Sigma N (fun i => xi i ^ 2).
Definition s_xy : R := Sigma N (fun i => xi i * yi i).
Definition denom : R := INR N * s_xx - s_x ^ 2.

Definition a : R := (s_xx * s_y - s_x * s_xy) / denom.
Definition b : R := (INR N * s_xy - s_x * s_y) / denom.

(** Sum of squared residuals of the line [a' + b' * x]. *)
Definition SSR (a' b' : R) : R :=
  Sigma N (fun i => (yi i - a' - b' * xi i) ^ 2).

(** The residual sum of squares written as in the specification. *)
Definition RSS (a' b' : R) : R :=
  Sigma N (fun i => (yi i - (a' + b' * xi i)) ^ 2).

Definition sigma : R := sqrt (RSS a b / (INR N - 2)).
Definition sigma_a : R := sqrt (sigma ^ 2 * s_xx / denom).
Definition sigma_b : R := sqrt (sigma ^ 2 * INR N / denom).

Definition all_equal : Prop :=
  forall i j, (i < N)%nat -> (j < N)%nat -> xi i = xi j.
End Data.

End Spec.

(** The two failures of the specification, as the source shows them:
    the message printed before [sys.exit()]. *)
Inductive failure : Type := InsufficientData | DegenerateInput.

Definition failure_message (f : failure) : string :=
  match f with
  | InsufficientData => msg_few_points
  | DegenerateInput => msg_zero_denom
  end.

(** A call fails with [f] from state [st]: the message of [f] is
    printed, [sys.exit()] is called, and nothing is returned. *)
Definition fails_with (f : failure) (st : state)
    (out : state * result (list R)) : Prop :=
  stdout (fst out) = stdout st ++ [failure_message f] /\
  snd out = Raised (SystemExit None).

(** A guard of the specification fires on [x]. *)
Definition guard_fires (x : list R) : Prop :=
  (Spec.N x <= 2)%nat \/ Rabs (Spec.denom x) < epsilon.

(** [sys.exit()] is Python's request to end the process: the
    [SystemExit] it raises is not an error (it lies outside [Exception])
    and ends the interpreter when nothing intercepts it.  [ValueError]
    is an ordinary error. *)
Definition exits_process (e : exn) : bool :=
  match e with
  | SystemExit _ => true
  | ValueError _ => false
  end.

(** The failure reaches the caller as an error value that does not end
    the process. *)
Definition surfaces_recoverable_error (out : state * result (list R)) : Prop :=
  exists e, snd out = Raised e /\ exits_process e = false.

(** The call on [x], [y] gives the same outcome whatever the state
    around it, and leaves standard output as it found it. *)
Definition deterministic_and_pure (x y : list R) : Prop :=
  forall st1 st2,
    snd (least_squares x y st1) = snd (least_squares x y st2) /\
    stdout (fst (least_squares x y st1)) = stdout st1.

(** Unfolds the body down to its guards. *)
Ltac run_body :=
  unfold least_squares, Py.bind, Py.enter, Py.assign, Py.print,
    Py.sys_exit, Py.raise, Py.lift_broadcast, Py.ret; cbn [stdout locals].

(** Discharges a guard on concrete data. *)
Ltac on_data :=
  unfold Spec.denom, Spec.s_xx, Spec.s_x, Spec.Sigma, Spec.xi, Spec.N, epsilon;
  cbn;
  try (rewrite Rabs_right by lra); try lra; try lia.

(** ** Running the body *)

Lemma epsilon_pos : 0 < epsilon.
Proof. unfold epsilon. lra. Qed.

Lemma broadcast_same_length (f : R -> R -> R) (u v : list R) :
  length u = length v -> broadcast f u v = Some (zip_with f u v).
Proof.
  intros H. unfold broadcast. rewrite H, Nat.eqb_refl. reflexivity.
Qed.

Lemma np_affine_length (c b : R) (l : list R) :
  length (np_affine c b l) = length l.
Proof. unfold np_affine. apply length_map. Qed.

Lemma least_squares_few (x y : list R) (st : state) :
  (Fit.N x <= 2)%Z ->
  least_squares x y st =
    (mkState (stdout st ++ [msg_few_points]) (Fit.frame_N x y),
     Raised (SystemExit None)).
Proof.
  intros H. unfold Fit.N in H. apply Z.leb_le in H.
  run_body. rewrite H. reflexivity.
Qed.

(** Whether two shapes broadcast depends on the lengths alone. *)
Lemma broadcast_defined (f : R -> R -> R) (u v : list R) :
  broadcast f u v <> None <->
  (length u = length v \/ length u = 1%nat \/ length v = 1%nat).
Proof.
  unfold broadcast.
  destruct (Nat.eqb_spec (length u) (length v)) as [E | E].
  - split; [intros _; now left | discriminate].
  - destruct u as [| p [| p' u]]; destruct v as [| q [| q' v]];
      cbn in *; split; intros H; try discriminate; try congruence;
      try (now right; left); try (now right; right);
      try (destruct H as [H | [H | H]]; congruence || lia).
Qed.

Lemma broadcast_residuals_defined (x y : list R) (c d : R) :
  broadcast Rmult x y <> None ->
  broadcast Rminus y (np_affine c d x) <> None.
Proof.
  rewrite !broadcast_defined, np_affine_length. intuition.
Qed.

Lemma least_squares_mismatch (x y : list R) (st : state) :
  (2 < Fit.N x)%Z ->
  broadcast Rmult x y = None ->
  least_squares x y st =
    (mkState (stdout st)
       (Fit.frame_N x y ++
        [("s_x", VFloat (Fit.s_x x)); ("s_y", VFloat (Fit.s_y y));
         ("s_xx", VFloat (Fit.s_xx x))]),
     Raised (ValueError "operands could not be broadcast together")).
Proof.
  intros HN Hb. unfold Fit.N in HN. apply Z.leb_gt in HN.
  run_body. rewrite HN, Hb. reflexivity.
Qed.

Lemma least_squares_degenerate (x y : list R) (st : state) :
  (2 < Fit.N x)%Z ->
  broadcast Rmult x y <> None ->
  Rabs (Fit.denom x) < epsilon ->
  least_squares x y st =
    (mkState (stdout st ++ [msg_zero_denom]) (Fit.frame_stats x y),
     Raised (SystemExit None)).
Proof.
  intros HN Hb Hd. unfold Fit.N in HN. apply Z.leb_gt in HN.
  run_body. rewrite HN.
  unfold Fit.frame_stats, Fit.frame_N, Fit.s_xy, Fit.denom, Fit.s_xx, Fit.s_x,
    Fit.s_y, Fit.N in *.
  destruct (broadcast Rmult x y) as [xy |]; [| congruence].
  cbn [Fit.array_of stdout locals app].
  destruct (Rlt_dec _ _) as [_ | n]; [reflexivity | contradiction].
Qed.

Lemma least_squares_returns (x y : list R) (st : state) :
  (2 < Fit.N x)%Z ->
  broadcast Rmult x y <> None ->
  epsilon <= Rabs (Fit.denom x) ->
  least_squares x y st =
    (mkState (stdout st) (Fit.frame_all x y),
     Done [Fit.a x y; Fit.b x y; Fit.sigma x y; Fit.sigma_a x y;
           Fit.sigma_b x y]).
Proof.
  intros HN Hb Hd.
  pose proof (broadcast_residuals_defined x y (Fit.a x y) (Fit.b x y) Hb) as Hr.
  assert (HN' : (Z.of_nat (length x) >? 2)%Z = true)
    by (apply Z.gtb_lt; exact HN).
  unfold Fit.N in HN. apply Z.leb_gt in HN.
  run_body. rewrite HN, HN'.
  unfold Fit.frame_all, Fit.frame_stats, Fit.frame_N, Fit.sigma_a, Fit.sigma_b,
    Fit.sigma, Fit.residuals, Fit.a, Fit.b, Fit.s_xy, Fit.denom, Fit.s_xx,
    Fit.s_x, Fit.s_y, Fit.N in *.
  destruct (broadcast Rmult x y) as [xy |]; [| congruence].
  cbn [Fit.array_of stdout locals app] in *.
  destruct (Rlt_dec _ _) as [l | _]; [lra |].
  destruct (broadcast Rminus y _) as [res |]; [| congruence].
  reflexivity.
Qed.

(** ** Sums over indices *)

Section SigmaLemmas.

Import Spec.

Lemma Sigma_ext (n : nat) (f g : nat -> R) :
  (forall i, (i < n)%nat -> f i = g i) -> Sigma n f = Sigma n g.
Proof.
  intros H. unfold Sigma. f_equal. apply map_ext_in.
  intros i Hi. apply in_seq in Hi. apply H. lia.
Qed.

Lemma Sigma_succ (n : nat) (f : nat -> R) :
  Sigma (S n) f = f 0%nat + Sigma n (fun i => f (S i)).
Proof.
  unfold Sigma. cbn [seq map fold_right].
  rewrite <- seq_shift, map_map. reflexivity.
Qed.

Lemma Sigma_plus (n : nat) (f g : nat -> R) :
  Sigma n (fun i => f i + g i) = Sigma n f + Sigma n g.
Proof.
  unfold Sigma. induction (seq 0 n) as [| k l IH]; cbn.
  - ring.
  - rewrite IH. ring.
Qed.

Lemma Sigma_scal (n : nat) (c : R) (f : nat -> R) :
  Sigma n (fun i => c * f i) = c * Sigma n f.
Proof.
  unfold Sigma. induction (seq 0 n) as [| k l IH]; cbn.
  - ring.
  - rewrite IH. ring.
Qed.

Lemma Sigma_const (n : nat) (c : R) :
  Sigma n (fun _ => c) = INR n * c.
Proof.
  unfold Sigma. rewrite <- (length_seq n 0) at 2.
  induction (seq 0 n) as [| k l IH].
  - cbn. ring.
  - cbn [map fold_right length]. rewrite IH, S_INR. ring.
Qed.

Lemma Sigma_nonneg (n : nat) (f : nat -> R) :
  (forall i, (i < n)%nat -> 0 <= f i) -> 0 <= Sigma n f.
Proof.
  intros H. unfold Sigma.
  assert (Hin : forall i, In i (seq 0 n) -> 0 <= f i)
    by (intros i Hi; apply in_seq in Hi; apply H; lia).
  induction (seq 0 n) as [| k l IH]; cbn.
  - lra.
  - assert (0 <= f k) by (apply Hin; now left).
    assert (0 <= fold_right Rplus 0 (map f l))
      by (apply IH; intros i Hi; apply Hin; now right).
    lra.
Qed.

Lemma Sigma_zero_terms (n : nat) (f : nat -> R) :
  (forall i, (i < n)%nat -> 0 <= f i) ->
  Sigma n f = 0 ->
  forall i, (i < n)%nat -> f i = 0.
Proof.
  intros H. unfold Sigma.
  assert (Hin : forall i, In i (seq 0 n) -> 0 <= f i)
    by (intros i Hi; apply in_seq in Hi; apply H; lia).
  assert (Hall : fold_right Rplus 0 (map f (seq 0 n)) = 0 ->
                 forall i, In i (seq 0 n) -> f i = 0).
  { induction (seq 0 n) as [| k l IH]; cbn.
    - intros _ i [].
    - intros Hs i Hi.
      assert (Hk : 0 <= f k) by (apply Hin; now left).
      assert (Hl : 0 <= fold_right Rplus 0 (map f l)).
      { clear - Hin. induction l as [| j l IHl]; cbn; [lra |].
        assert (0 <= f j) by (apply Hin; right; now left).
        assert (0 <= fold_right Rplus 0 (map f l)).
        { apply IHl. intros i [Hi | Hi]; apply Hin;
            [now left | right; now right]. }
        lra. }
      destruct Hi as [<- | Hi]; [lra |].
      apply IH; [intros j Hj; apply Hin; now right | lra | exact Hi]. }
  intros Hs i Hi. apply Hall; [exact Hs | apply in_seq; lia].
Qed.

(** [np.sum] of an array is the sum of its entries over the indices. *)
Lemma np_sum_Sigma (l : list R) :
  np_sum l = Sigma (length l) (fun i => nth i l 0).
Proof.
  induction l as [| v l IH].
  - reflexivity.
  - cbn [length]. rewrite Sigma_succ. cbn [nth np_sum fold_right].
    f_equal. exact IH.
Qed.

End SigmaLemmas.

(** ** Entries of the arrays the body builds *)

Lemma zip_with_length (f : R -> R -> R) (u v : list R) :
  length u = length v -> length (zip_with f u v) = length u.
Proof.
  revert v. induction u as [| p u IH]; intros [| q v] H; cbn in *;
    try reflexivity; try discriminate.
  f_equal. apply IH. congruence.
Qed.

Lemma zip_with_nth (f : R -> R -> R) (u v : list R) (i : nat) :
  length u = length v -> (i < length u)%nat ->
  nth i (zip_with f u v) 0 = f (nth i u 0) (nth i v 0).
Proof.
  revert v i. induction u as [| p u IH]; intros [| q v] i H Hi; cbn in *;
    try lia; try discriminate.
  destruct i as [| i]; [reflexivity |].
  apply IH; [congruence | lia].
Qed.

Lemma map_nth_in (g : R -> R) (l : list R) (i : nat) :
  (i < length l)%nat -> nth i (map g l) 0 = g (nth i l 0).
Proof.
  intros Hi. rewrite (nth_indep _ 0 (g 0)) by (rewrite length_map; exact Hi).
  apply map_nth.
Qed.

(** ** The body's statistics are the sums of the specification *)

Section Bridge.

Variables x y : list R.
Hypothesis same_length : length x = length y.

Lemma N_agrees : IZR (Fit.N x) = INR (Spec.N x).
Proof. unfold Fit.N, Spec.N. symmetry. apply INR_IZR_INZ. Qed.

Lemma s_x_agrees : Fit.s_x x = Spec.s_x x.
Proof. unfold Fit.s_x, Spec.s_x. apply np_sum_Sigma. Qed.

Lemma s_y_agrees : Fit.s_y y = Spec.s_y x y.
Proof.
  unfold Fit.s_y, Spec.s_y, Spec.N. rewrite same_length.
  apply np_sum_Sigma.
Qed.

Lemma s_xx_agrees : Fit.s_xx x = Spec.s_xx x.
Proof.
  unfold Fit.s_xx, Spec.s_xx, Spec.N, np_square.
  rewrite np_sum_Sigma, length_map.
  apply Sigma_ext. intros i Hi. now rewrite map_nth_in.
Qed.

Lemma s_xy_agrees : Fit.s_xy x y = Spec.s_xy x y.
Proof.
  unfold Fit.s_xy, Spec.s_xy, Spec.N.
  rewrite broadcast_same_length by exact same_length.
  cbn [Fit.array_of].
  rewrite np_sum_Sigma, zip_with_length by exact same_length.
  apply Sigma_ext. intros i Hi. now rewrite zip_with_nth.
Qed.

Lemma denom_agrees : Fit.denom x = Spec.denom x.
Proof.
  unfold Fit.denom, Spec.denom.
  now rewrite N_agrees, s_x_agrees, s_xx_agrees.
Qed.

Lemma a_agrees : Fit.a x y = Spec.a x y.
Proof.
  unfold Fit.a, Spec.a.
  now rewrite denom_agrees, s_x_agrees, s_y_agrees, s_xx_agrees, s_xy_agrees.
Qed.

Lemma b_agrees : Fit.b x y = Spec.b x y.
Proof.
  unfold Fit.b, Spec.b.
  now rewrite denom_agrees, N_agrees, s_x_agrees, s_y_agrees, s_xy_agrees.
Qed.

Lemma residuals_nth (i : nat) :
  (i < length x)%nat ->
  nth i (Fit.residuals x y) 0 =
    Spec.yi y i - (Fit.a x y + Fit.b x y * Spec.xi x i).
Proof.
  intros Hi. unfold Fit.residuals.
  rewrite broadcast_same_length
    by (rewrite np_affine_length; symmetry; exact same_length).
  cbn [Fit.array_of].
  rewrite zip_with_nth;
    [| rewrite np_affine_length; symmetry; exact same_length
     | rewrite <- same_length; exact Hi].
  unfold np_affine. now rewrite map_nth_in.
Qed.

Lemma residuals_length : length (Fit.residuals x y) = length x.
Proof.
  unfold Fit.residuals.
  rewrite broadcast_same_length
    by (rewrite np_affine_length; symmetry; exact same_length).
  cbn [Fit.array_of].
  rewrite zip_with_length
    by (rewrite np_affine_length; symmetry; exact same_length).
  symmetry. exact same_length.
Qed.

Lemma rss_agrees :
  np_sum (np_square (Fit.residuals x y)) =
    Spec.RSS x y (Fit.a x y) (Fit.b x y).
Proof.
  unfold Spec.RSS, Spec.N, np_square.
  rewrite np_sum_Sigma, length_map, residuals_length.
  apply Sigma_ext. intros i Hi.
  rewrite map_nth_in by (rewrite residuals_length; exact Hi).
  now rewrite residuals_nth.
Qed.

Lemma shapes_agree : broadcast Rmult x y <> None.
Proof. rewrite broadcast_same_length by exact same_length. discriminate. Qed.

End Bridge.

(** ** Algebra of the normal equations *)

Section Algebra.

Import Spec.
Variables x y : list R.

Local Abbreviation n := (N x).
Local Abbreviation X := (xi x).
Local Abbreviation Y := (yi y).

(** Sum of the residuals of an arbitrary line. *)
Lemma residual_sum (a' b' : R) :
  Sigma n (fun i => Y i - a' - b' * X i) =
    s_y x y - INR n * a' - b' * s_x x.
Proof.
  rewrite (Sigma_ext _ _ (fun i => Y i + ((-a') + (-b') * X i)))
    by (intros; ring).
  rewrite Sigma_plus, Sigma_plus, Sigma_const, Sigma_scal.
  unfold s_y, s_x. ring.
Qed.

(** Sum of the residuals weighted by [x]. *)
Lemma residual_moment (a' b' : R) :
  Sigma n (fun i => X i * (Y i - a' - b' * X i)) =
    s_xy x y - a' * s_x x - b' * s_xx x.
Proof.
  rewrite (Sigma_ext _ _
    (fun i => X i * Y i + ((-a') * X i + (-b') * (X i ^ 2))))
    by (intros; ring).
  rewrite Sigma_plus, Sigma_plus, !Sigma_scal.
  unfold s_xy, s_x, s_xx. ring.
Qed.

(** The normal equations, solved by [a] and [b] when [denom <> 0]. *)
Lemma normal_equations :
  denom x <> 0 ->
  INR n * a x y + s_x x * b x y = s_y x y /\
  s_x x * a x y + s_xx x * b x y = s_xy x y.
Proof.
  intros Hd. unfold a, b. unfold denom in *.
  split; field; exact Hd.
Qed.

(** The sum of squared residuals around any line, split at a second
    line [(a0, b0)]. *)
Lemma SSR_split (a0 b0 a' b' : R) :
  SSR x y a' b' =
    SSR x y a0 b0
    + 2 * (a0 - a') * Sigma n (fun i => Y i - a0 - b0 * X i)
    + 2 * (b0 - b') * Sigma n (fun i => X i * (Y i - a0 - b0 * X i))
    + Sigma n (fun i => ((a0 - a') + (b0 - b') * X i) ^ 2).
Proof.
  unfold SSR.
  rewrite <- !Sigma_scal, <- !Sigma_plus.
  apply Sigma_ext. intros i _. ring.
Qed.

(** [N * denom] is a sum of squares. *)
Lemma denom_sum_of_squares :
  INR n * denom x = Sigma n (fun i => (INR n * X i - s_x x) ^ 2).
Proof.
  rewrite (Sigma_ext _ _
    (fun i => INR n ^ 2 * (X i ^ 2)
              + ((- 2 * INR n * s_x x) * X i + s_x x ^ 2)))
    by (intros; ring).
  rewrite Sigma_plus, Sigma_plus, !Sigma_scal, Sigma_const.
  unfold denom. fold (s_xx x). fold (s_x x). ring.
Qed.

Lemma N_zero_denom : n = 0%nat -> denom x = 0.
Proof.
  intros H. unfold denom, s_xx, s_x. rewrite H. cbn. ring.
Qed.

Lemma denom_nonneg : 0 <= denom x.
Proof.
  destruct (Nat.eq_dec n 0) as [E | E].
  - rewrite N_zero_denom by exact E. lra.
  - assert (Hn : 0 < INR n) by (apply lt_0_INR; lia).
    assert (Hs : 0 <= INR n * denom x).
    { rewrite denom_sum_of_squares. apply Sigma_nonneg.
      intros i _. apply pow2_ge_0. }
    nra.
Qed.

Lemma denom_zero_all_equal : denom x = 0 <-> all_equal x.
Proof.
  split.
  - intros Hd i j Hi Hj.
    assert (Hn : 0 < INR n) by (apply lt_0_INR; lia).
    assert (Hs : Sigma n (fun k => (INR n * X k - s_x x) ^ 2) = 0)
      by (rewrite <- denom_sum_of_squares, Hd; ring).
    pose proof (Sigma_zero_terms _ _
      (fun k _ => pow2_ge_0 (INR n * X k - s_x x)) Hs) as Hz.
    pose proof (Hz i Hi) as Zi. pose proof (Hz j Hj) as Zj. cbn beta in Zi, Zj.
    assert (Ei : INR n * X i - s_x x = 0) by nra.
    assert (Ej : INR n * X j - s_x x = 0) by nra.
    assert (INR n * (X i - X j) = 0) by lra.
    nra.
  - intros He.
    destruct (Nat.eq_dec n 0) as [E | E]; [now apply N_zero_denom |].
    assert (H0 : (0 < n)%nat) by lia.
    assert (Hx : s_x x = INR n * X 0%nat).
    { unfold s_x. rewrite (Sigma_ext _ _ (fun _ => X 0%nat))
        by (intros i Hi; now apply He).
      apply Sigma_const. }
    assert (Hxx : s_xx x = INR n * X 0%nat ^ 2).
    { unfold s_xx. rewrite (Sigma_ext _ _ (fun _ => X 0%nat ^ 2))
        by (intros i Hi; f_equal; now apply He).
      apply Sigma_const. }
    unfold denom. rewrite Hx, Hxx. ring.
Qed.

End Algebra.

(** ** The body on sample data *)

Ltac fit_values :=
  unfold Fit.a, Fit.b, Fit.denom, Fit.s_xy, Fit.s_xx, Fit.s_x, Fit.s_y,
    Fit.N, broadcast, np_sum, np_square;
  cbn; lra.

Example fit_sample_intercept :
  Fit.a [1; 2; 3; 4; 5] [2.1; 3.9; 6.2; 7.8; 10.1] = 0.05.
Proof. fit_values. Qed.

Example fit_sample_slope :
  Fit.b [1; 2; 3; 4; 5] [2.1; 3.9; 6.2; 7.8; 10.1] = 1.99.
Proof. fit_values. Qed.

Example fit_sample_denom : Fit.denom [1; 2; 3; 4; 5] = 50.
Proof. fit_values. Qed.

Example call_two_points :
  least_squares [1; 2] [1; 2] (mkState [] []) =
    (mkState [msg_few_points]
       [("x", VArray [1; 2]); ("y", VArray [1; 2]); ("N", VInt 2)],
     Raised (SystemExit None)).
Proof. apply least_squares_few. unfold Fit.N. cbn. lia. Qed.

Example call_shapes_differ :
  snd (least_squares [1; 2; 3] [1; 2] (mkState [] [])) =
    Raised (ValueError "operands could not be broadcast together").
Proof.
  rewrite least_squares_mismatch;
    [reflexivity | unfold Fit.N; cbn; lia | reflexivity].
Qed.

(** ** Consequences of the guards *)

Lemma spec_N_guard (x : list R) :
  (2 < Fit.N x)%Z <-> (2 < Spec.N x)%nat.
Proof. unfold Fit.N, Spec.N. lia. Qed.

Lemma guard_denom_pos (x : list R) :
  epsilon <= Rabs (Fit.denom x) -> 0 < Fit.denom x.
Proof.
  intros H. pose proof epsilon_pos as He.
  pose proof (denom_nonneg x) as Hd. rewrite <- denom_agrees in Hd.
  rewrite Rabs_right in H by lra. lra.
Qed.

Lemma N_minus_two (x : list R) : IZR (Fit.N x - 2) = INR (Spec.N x) - 2.
Proof. rewrite minus_IZR, N_agrees. reflexivity. Qed.

Lemma np_sum_square_nonneg (l : list R) : 0 <= np_sum (np_square l).
Proof.
  induction l as [| v l IH]; cbn.
  - lra.
  - pose proof (pow2_ge_0 v). unfold np_sum, np_square in IH. cbn in *. nra.
Qed.

(** A call that returns passed both guards, and returns the values of
    the [Fit] module. *)
Lemma least_squares_done_inv (x y : list R) (st st' : state) (r : list R) :
  least_squares x y st = (st', Done r) ->
  (2 < Fit.N x)%Z /\ broadcast Rmult x y <> None /\
  epsilon <= Rabs (Fit.denom x) /\
  st' = mkState (stdout st) (Fit.frame_all x y) /\
  r = [Fit.a x y; Fit.b x y; Fit.sigma x y; Fit.sigma_a x y; Fit.sigma_b x y].
Proof.
  intros H.
  destruct (Z_le_gt_dec (Fit.N x) 2) as [HN | HN].
  { rewrite least_squares_few in H by exact HN. discriminate. }
  assert (HN' : (2 < Fit.N x)%Z) by lia.
  destruct (broadcast Rmult x y) as [xy |] eqn:Hb.
  2:{ rewrite least_squares_mismatch in H by assumption. discriminate. }
  assert (Hb' : broadcast Rmult x y <> None) by congruence.
  destruct (Rlt_le_dec (Rabs (Fit.denom x)) epsilon) as [Hd | Hd].
  { rewrite least_squares_degenerate in H by assumption. discriminate. }
  rewrite least_squares_returns in H by assumption.
  inversion H. repeat split; auto; congruence.
Qed.

(** ** Closed form and optimality of the fitted line *)

(** C3: when both guards pass, the call returns, and the intercept and
    the slope it returns are the closed-form solutions
    [a = (s_xx * s_y - s_x * s_xy) / denom] and
    [b = (N * s_xy - s_x * s_y) / denom] over the sums
    [s_x], [s_y], [s_xx], [s_xy] and [denom = N * s_xx - s_x ^ 2]. *)
Theorem least_squares_closed_form (x y : list R) (st : state) :
  length x = length y ->
  (2 < Spec.N x)%nat ->
  epsilon <= Rabs (Spec.denom x) ->
  exists sigma sigma_a sigma_b st',
    least_squares x y st =
      (st', Done [Spec.a x y; Spec.b x y; sigma; sigma_a; sigma_b]).
Proof.
  intros Hlen HN Hd.
  rewrite <- denom_agrees in Hd. apply spec_N_guard in HN.
  exists (Fit.sigma x y), (Fit.sigma_a x y), (Fit.sigma_b x y).
  eexists.
  rewrite <- (a_agrees x y Hlen), <- (b_agrees x y Hlen).
  apply least_squares_returns; auto using shapes_agree.
Qed.

Lemma least_squares_closed_form_witness :
  exists sigma sigma_a sigma_b st',
    least_squares [0; 1; 2] [1; 3; 6] (mkState [] []) =
      (st', Done [Spec.a [0; 1; 2] [1; 3; 6]; Spec.b [0; 1; 2] [1; 3; 6];
                  sigma; sigma_a; sigma_b]).
Proof.
  apply (least_squares_closed_form [0; 1; 2] [1; 3; 6] (mkState [] []));
    [reflexivity | on_data | on_data].
Defined.

(** C7: for every successful fit the residuals [y_i - a - b * x_i] of
    the returned intercept and slope satisfy the normal equations: they
    sum to zero, and so do their products with the [x_i]. *)
Theorem residuals_orthogonal (x y : list R) (st : state) :
  length x = length y ->
  (2 < Spec.N x)%nat ->
  epsilon <= Rabs (Spec.denom x) ->
  exists a b sigma sigma_a sigma_b st',
    least_squares x y st = (st', Done [a; b; sigma; sigma_a; sigma_b]) /\
    Spec.Sigma (Spec.N x) (fun i => Spec.yi y i - a - b * Spec.xi x i) = 0 /\
    Spec.Sigma (Spec.N x)
      (fun i => Spec.xi x i * (Spec.yi y i - a - b * Spec.xi x i)) = 0.
Proof.
  intros Hlen HN Hd.
  assert (Hpos : 0 < Spec.denom x)
    by (rewrite <- denom_agrees in *; now apply guard_denom_pos).
  rewrite <- denom_agrees in Hd. apply spec_N_guard in HN.
  exists (Fit.a x y), (Fit.b x y), (Fit.sigma x y), (Fit.sigma_a x y),
    (Fit.sigma_b x y).
  eexists. split.
  - apply least_squares_returns; auto using shapes_agree.
  - rewrite residual_sum, residual_moment.
    rewrite (a_agrees x y Hlen), (b_agrees x y Hlen).
    destruct (normal_equations x y) as [E1 E2]; [lra |].
    split; lra.
Qed.

Lemma residuals_orthogonal_witness :
  exists a b sigma sigma_a sigma_b st',
    least_squares [0; 1; 2] [1; 3; 6] (mkState [] []) =
      (st', Done [a; b; sigma; sigma_a; sigma_b]) /\
    Spec.Sigma (Spec.N [0; 1; 2])
      (fun i => Spec.yi [1; 3; 6] i - a - b * Spec.xi [0; 1; 2] i) = 0 /\
    Spec.Sigma (Spec.N [0; 1; 2])
      (fun i => Spec.xi [0; 1; 2] i
                * (Spec.yi [1; 3; 6] i - a - b * Spec.xi [0; 1; 2] i)) = 0.
Proof.
  apply (residuals_orthogonal [0; 1; 2] [1; 3; 6] (mkState [] []));
    [reflexivity | on_data | on_data].
Defined.

(** C1: for equal-length [x], [y] passing both guards, the returned
    intercept [a] and slope [b] minimize the sum of squared residuals:
    for all real [a'], [b'],
    [SSR a b <= SSR a' b'] where [SSR a b] is the sum of
    [(y_i - a - b * x_i) ^ 2]. *)
Theorem least_squares_minimizes (x y : list R) (st : state) :
  length x = length y ->
  (2 < Spec.N x)%nat ->
  epsilon <= Rabs (Spec.denom x) ->
  exists a b sigma sigma_a sigma_b st',
    least_squares x y st = (st', Done [a; b; sigma; sigma_a; sigma_b]) /\
    forall a' b' : R, Spec.SSR x y a b <= Spec.SSR x y a' b'.
Proof.
  intros Hlen HN Hd.
  assert (Hpos : 0 < Spec.denom x)
    by (rewrite <- denom_agrees in *; now apply guard_denom_pos).
  rewrite <- denom_agrees in Hd. apply spec_N_guard in HN.
  exists (Fit.a x y), (Fit.b x y), (Fit.sigma x y), (Fit.sigma_a x y),
    (Fit.sigma_b x y).
  eexists. split.
  - apply least_squares_returns; auto using shapes_agree.
  - intros a' b'.
    rewrite (SSR_split x y (Fit.a x y) (Fit.b x y) a' b').
    rewrite residual_sum, residual_moment.
    rewrite (a_agrees x y Hlen), (b_agrees x y Hlen).
    destruct (normal_equations x y) as [E1 E2]; [lra |].
    assert (Hsq : 0 <= Spec.Sigma (Spec.N x)
              (fun i => ((Spec.a x y - a') + (Spec.b x y - b') * Spec.xi x i) ^ 2))
      by (apply Sigma_nonneg; intros i _; apply pow2_ge_0).
    replace (Spec.s_y x y - INR (Spec.N x) * Spec.a x y
             - Spec.b x y * Spec.s_x x) with 0 by lra.
    replace (Spec.s_xy x y - Spec.a x y * Spec.s_x x
             - Spec.b x y * Spec.s_xx x) with 0 by lra.
    lra.
Qed.

Lemma least_squares_minimizes_witness :
  exists a b sigma sigma_a sigma_b st',
    least_squares [0; 1; 2] [1; 3; 6] (mkState [] []) =
      (st', Done [a; b; sigma; sigma_a; sigma_b]) /\
    forall a' b' : R,
      Spec.SSR [0; 1; 2] [1; 3; 6] a b <= Spec.SSR [0; 1; 2] [1; 3; 6] a' b'.
Proof.
  apply (least_squares_minimizes [0; 1; 2] [1; 3; 6] (mkState [] []));
    [reflexivity | on_data | on_data].
Defined.

(** ** Uncertainties *)

(** C4: on every successful call the uncertainties are
    [sigma = sqrt (RSS / (N - 2))] with [RSS] the sum of
    [(y_i - (a + b * x_i)) ^ 2], [sigma_a = sqrt (sigma ^ 2 * s_xx / denom)]
    and [sigma_b = sqrt (sigma ^ 2 * N / denom)]; and whenever a result is
    returned, [N > 2] held at the test of the uncertainty block, so the
    arm that sets the three values to zero did not produce it. *)
Theorem uncertainties_from_residuals (x y : list R) (st : state) :
  (forall st' r, least_squares x y st = (st', Done r) ->
     Fit.uncertainty_arm x = Fit.Computed) /\
  (length x = length y ->
   (2 < Spec.N x)%nat ->
   epsilon <= Rabs (Spec.denom x) ->
   exists st',
     least_squares x y st =
       (st', Done [Spec.a x y; Spec.b x y; Spec.sigma x y; Spec.sigma_a x y;
                   Spec.sigma_b x y])).
Proof.
  split.
  - intros st' r H. apply least_squares_done_inv in H as (HN & _).
    unfold Fit.uncertainty_arm.
    replace (Fit.N x >? 2)%Z with true; [reflexivity |].
    symmetry. apply Z.gtb_lt. exact HN.
  - intros Hlen HN Hd.
    rewrite <- denom_agrees in Hd. apply spec_N_guard in HN.
    eexists.
    rewrite least_squares_returns by auto using shapes_agree.
    unfold Spec.sigma_a, Spec.sigma_b, Spec.sigma.
    unfold Fit.sigma_a, Fit.sigma_b, Fit.sigma.
    rewrite (rss_agrees x y Hlen), N_minus_two, N_agrees, s_xx_agrees,
      denom_agrees.
    rewrite (a_agrees x y Hlen), (b_agrees x y Hlen).
    reflexivity.
Qed.

Lemma uncertainties_from_residuals_witness :
  exists st',
    least_squares [0; 1; 2] [1; 3; 6] (mkState [] []) =
      (st', Done [Spec.a [0; 1; 2] [1; 3; 6]; Spec.b [0; 1; 2] [1; 3; 6];
                  Spec.sigma [0; 1; 2] [1; 3; 6];
                  Spec.sigma_a [0; 1; 2] [1; 3; 6];
                  Spec.sigma_b [0; 1; 2] [1; 3; 6]]).
Proof.
  apply (proj2 (uncertainties_from_residuals [0; 1; 2] [1; 3; 6]
                  (mkState [] [])));
    [reflexivity | on_data | on_data].
Defined.

Lemma div_nonneg (p q : R) : 0 <= p -> 0 < q -> 0 <= p / q.
Proof.
  intros Hp Hq. unfold Rdiv.
  apply Rmult_le_pos; [exact Hp |].
  left. apply Rinv_0_lt_compat. exact Hq.
Qed.

(** C10: [denom = N * s_xx - s_x ^ 2] is never negative; on every
    successful call it is strictly positive, the three arguments of
    [sqrt] are non-negative, and the returned [sigma], [sigma_a],
    [sigma_b] are non-negative reals. *)
Theorem uncertainties_well_defined (x y : list R) (st : state) :
  0 <= Fit.denom x /\
  forall st' r, least_squares x y st = (st', Done r) ->
    0 < Fit.denom x /\
    0 <= np_sum (np_square (Fit.residuals x y)) / IZR (Fit.N x - 2) /\
    0 <= Fit.sigma x y ^ 2 * Fit.s_xx x / Fit.denom x /\
    0 <= Fit.sigma x y ^ 2 * IZR (Fit.N x) / Fit.denom x /\
    exists a b sigma sigma_a sigma_b,
      r = [a; b; sigma; sigma_a; sigma_b] /\
      sigma = Fit.sigma x y /\ sigma_a = Fit.sigma_a x y /\
      sigma_b = Fit.sigma_b x y /\
      0 <= sigma /\ 0 <= sigma_a /\ 0 <= sigma_b.
Proof.
  split.
  - rewrite denom_agrees. apply denom_nonneg.
  - intros st' r H.
    apply least_squares_done_inv in H as (HN & _ & Hd & _ & ->).
    pose proof (guard_denom_pos x Hd) as Hpos.
    assert (HN2 : 0 < IZR (Fit.N x - 2)) by (apply IZR_lt; lia).
    assert (HNR : 0 <= IZR (Fit.N x)) by (apply IZR_le; lia).
    pose proof (np_sum_square_nonneg (Fit.residuals x y)) as Hrss.
    pose proof (np_sum_square_nonneg x) as Hsxx. fold (Fit.s_xx x) in Hsxx.
    pose proof (pow2_ge_0 (Fit.sigma x y)) as Hs2.
    repeat split.
    + exact Hpos.
    + now apply div_nonneg.
    + apply div_nonneg; [now apply Rmult_le_pos | exact Hpos].
    + apply div_nonneg; [now apply Rmult_le_pos | exact Hpos].
    + exists (Fit.a x y), (Fit.b x y), (Fit.sigma x y), (Fit.sigma_a x y),
        (Fit.sigma_b x y).
      repeat split; apply sqrt_pos.
Qed.

Lemma uncertainties_well_defined_witness :
  0 < Fit.denom [0; 1; 2] /\
  0 <= Fit.sigma [0; 1; 2] [1; 3; 6] /\
  0 <= Fit.sigma_a [0; 1; 2] [1; 3; 6] /\
  0 <= Fit.sigma_b [0; 1; 2] [1; 3; 6].
Proof.
  destruct (uncertainties_well_defined [0; 1; 2] [1; 3; 6] (mkState [] []))
    as [_ H].
  destruct (H (mkState [] (Fit.frame_all [0; 1; 2] [1; 3; 6]))
              [Fit.a [0; 1; 2] [1; 3; 6]; Fit.b [0; 1; 2] [1; 3; 6];
               Fit.sigma [0; 1; 2] [1; 3; 6]; Fit.sigma_a [0; 1; 2] [1; 3; 6];
               Fit.sigma_b [0; 1; 2] [1; 3; 6]])
    as (Hd & _ & _ & _ & a & b & s & sa & sb & Hr & -> & -> & -> & Hs & Hsa & Hsb).
  - apply least_squares_returns.
    + unfold Fit.N. cbn. lia.
    + discriminate.
    + rewrite denom_agrees. on_data.
  - repeat split; assumption.
Defined.

(** ** The guards *)

(** C5: with [N = len(x) <= 2] the call fails with [InsufficientData];
    the failure comes before any of [s_x], [s_y], [s_xx], [s_xy], [denom]
    is computed (none is bound in the frame), and no result is
    produced. *)
Theorem insufficient_data (x y : list R) (st : state) :
  (Spec.N x <= 2)%nat ->
  fails_with InsufficientData st (least_squares x y st) /\
  bound (locals (fst (least_squares x y st))) = ["x"; "y"; "N"] /\
  (forall v, In v ["s_x"; "s_y"; "s_xx"; "s_xy"; "denom"] ->
     ~ In v (bound (locals (fst (least_squares x y st))))) /\
  (forall r, snd (least_squares x y st) <> Done r).
Proof.
  intros HN.
  assert (HN' : (Fit.N x <= 2)%Z) by (unfold Fit.N, Spec.N in *; lia).
  rewrite least_squares_few by exact HN'.
  unfold fails_with. cbn.
  repeat split; try discriminate.
  intros v Hv Hb.
  repeat (destruct Hv as [<- | Hv]; [intuition discriminate |]).
  exact Hv.
Qed.

Lemma insufficient_data_witness :
  fails_with InsufficientData (mkState [] [])
    (least_squares [1; 2] [1; 2] (mkState [] [])) /\
  bound (locals (fst (least_squares [1; 2] [1; 2] (mkState [] [])))) =
    ["x"; "y"; "N"] /\
  (forall v, In v ["s_x"; "s_y"; "s_xx"; "s_xy"; "denom"] ->
     ~ In v (bound (locals (fst (least_squares [1; 2] [1; 2]
                                   (mkState [] [])))))) /\
  (forall r, snd (least_squares [1; 2] [1; 2] (mkState [] [])) <> Done r).
Proof.
  apply (insufficient_data [1; 2] [1; 2] (mkState [] [])). cbn. lia.
Defined.

(** C6: with [N > 2] and [|denom| < 1e-6] the call fails with
    [DegenerateInput], after [denom] is computed and before [a] and [b]
    are; with [N > 2] and [|denom| >= 1e-6] neither failure occurs and a
    five-element result is returned. *)
Theorem degenerate_input_or_fit (x y : list R) (st : state) :
  length x = length y ->
  (2 < Spec.N x)%nat ->
  (Rabs (Spec.denom x) < epsilon ->
     fails_with DegenerateInput st (least_squares x y st) /\
     bound (locals (fst (least_squares x y st))) =
       ["x"; "y"; "N"; "s_x"; "s_y"; "s_xx"; "s_xy"; "denom"] /\
     In ("denom", VFloat (Spec.denom x))
        (locals (fst (least_squares x y st))) /\
     ~ In "a" (bound (locals (fst (least_squares x y st)))) /\
     ~ In "b" (bound (locals (fst (least_squares x y st))))) /\
  (epsilon <= Rabs (Spec.denom x) ->
     exists a b sigma sigma_a sigma_b st',
       least_squares x y st = (st', Done [a; b; sigma; sigma_a; sigma_b]) /\
       stdout st' = stdout st).
Proof.
  intros Hlen HN. apply spec_N_guard in HN.
  pose proof (shapes_agree x y Hlen) as Hb.
  rewrite <- denom_agrees.
  split; intros Hd.
  - rewrite least_squares_degenerate by assumption.
    unfold fails_with. cbn.
    repeat split.
    + do 7 right. now left.
    + intros H. repeat (destruct H as [H | H]; [discriminate |]). exact H.
    + intros H. repeat (destruct H as [H | H]; [discriminate |]). exact H.
  - rewrite least_squares_returns by assumption.
    do 5 eexists. eexists. split; reflexivity.
Qed.

Lemma degenerate_input_or_fit_witness :
  fails_with DegenerateInput (mkState [] [])
    (least_squares [5; 5; 5; 5] [1; 2; 3; 4] (mkState [] [])) /\
  exists a b sigma sigma_a sigma_b st',
    least_squares [0; 1; 2] [1; 3; 6] (mkState [] []) =
      (st', Done [a; b; sigma; sigma_a; sigma_b]) /\
    stdout st' = [].
Proof.
  split.
  - apply (proj1 (degenerate_input_or_fit [5; 5; 5; 5] [1; 2; 3; 4]
                    (mkState [] []) eq_refl ltac:(on_data))).
    on_data.
  - apply (proj2 (degenerate_input_or_fit [0; 1; 2] [1; 3; 6]
                    (mkState [] []) eq_refl ltac:(on_data))).
    on_data.
Defined.

(** C8: for every sequence [x] of length [N], the value of
    [denom = N * s_xx - s_x ^ 2] is zero exactly when all entries of
    [x] are equal. *)
Theorem denom_zero_iff_all_equal (x : list R) :
  Fit.denom x = 0 <-> Spec.all_equal x.
Proof.
  rewrite denom_agrees. apply denom_zero_all_equal.
Qed.

(** ** How a failure reaches the caller *)

(** C2, as stated, fails: on [x = [1, 2]] the first guard fires and the
    call ends in [SystemExit], the request to leave the process, not in
    a recoverable error; and the exception raised is the same value as
    the one the second guard raises on [x = [5, 5, 5, 5]]. *)
Lemma guard_failure_not_recoverable :
  guard_fires [1; 2] /\
  ~ surfaces_recoverable_error (least_squares [1; 2] [1; 2] (mkState [] [])) /\
  guard_fires [5; 5; 5; 5] /\
  snd (least_squares [1; 2] [1; 2] (mkState [] [])) =
    snd (least_squares [5; 5; 5; 5] [1; 2; 3; 4] (mkState [] [])).
Proof.
  assert (G1 : guard_fires [1; 2]) by (left; cbn; lia).
  assert (G2 : guard_fires [5; 5; 5; 5]) by (right; on_data).
  repeat split; try assumption.
  - intros (e & He & Hx).
    rewrite least_squares_few in He by (unfold Fit.N; cbn; lia).
    cbn in He. inversion He; subst e. discriminate.
  - rewrite least_squares_few by (unfold Fit.N; cbn; lia).
    rewrite least_squares_degenerate;
      [reflexivity | unfold Fit.N; cbn; lia | discriminate
      | rewrite denom_agrees; on_data].
Qed.

(** C2, amended: when a guard fires on equal-length [x], [y], nothing is
    returned; the call prints the message of the guard that fired and
    calls [sys.exit()], raising [SystemExit] with no exit status, which
    ends the process unless the caller catches it.  The guard is told by
    the printed message alone: the first guard is the one reported
    exactly when [N <= 2], and the two messages differ. *)
Theorem guard_failure_exits (x y : list R) (st : state) :
  length x = length y ->
  guard_fires x ->
  exists f,
    fails_with f st (least_squares x y st) /\
    (f = InsufficientData <-> (Spec.N x <= 2)%nat) /\
    (exists e, snd (least_squares x y st) = Raised e /\
               exits_process e = true) /\
    (forall r, snd (least_squares x y st) <> Done r) /\
    failure_message InsufficientData <> failure_message DegenerateInput.
Proof.
  intros Hlen Hg.
  assert (Hmsg : failure_message InsufficientData
                 <> failure_message DegenerateInput) by discriminate.
  destruct (le_gt_dec (Spec.N x) 2) as [HN | HN].
  - exists InsufficientData.
    rewrite least_squares_few by (unfold Fit.N, Spec.N in *; lia).
    unfold fails_with. cbn.
    repeat split; auto; try discriminate.
    exists (SystemExit None). split; reflexivity.
  - destruct Hg as [Hg | Hg]; [lia |].
    exists DegenerateInput.
    rewrite least_squares_degenerate;
      [| apply spec_N_guard; lia | now apply shapes_agree
       | now rewrite denom_agrees].
    unfold fails_with. cbn.
    repeat split; auto; try discriminate; try lia.
    exists (SystemExit None). split; reflexivity.
Qed.

Lemma guard_failure_exits_witness :
  exists f,
    fails_with f (mkState [] [])
      (least_squares [5; 5; 5; 5] [1; 2; 3; 4] (mkState [] [])) /\
    (f = InsufficientData <-> (Spec.N [5; 5; 5; 5]%R <= 2)%nat) /\
    (exists e,
        snd (least_squares [5; 5; 5; 5] [1; 2; 3; 4] (mkState [] []))
          = Raised e /\
        exits_process e = true) /\
    (forall r,
        snd (least_squares [5; 5; 5; 5] [1; 2; 3; 4] (mkState [] []))
          <> Done r) /\
    failure_message InsufficientData <> failure_message DegenerateInput.
Proof.
  apply (guard_failure_exits [5; 5; 5; 5] [1; 2; 3; 4] (mkState [] []));
    [reflexivity | right; on_data].
Defined.

(** ** Determinism and effects *)

(** C9, as stated, fails: on [x = [1, 2]] the call writes a line on
    standard output, so state outside the call is modified. *)
Lemma short_input_writes_stdout :
  ~ deterministic_and_pure [1; 2] [1; 2].
Proof.
  intros H. destruct (H (mkState [] []) (mkState [] [])) as [_ Hout].
  rewrite least_squares_few in Hout by (unfold Fit.N; cbn; lia).
  cbn in Hout. discriminate.
Qed.

(** C9, amended: the call is deterministic and reads no state outside
    it: the outcome (the five-element result or the exception), the
    frame and the text printed depend on [x] and [y] alone.  A call that
    returns prints nothing; a call stopped by a guard appends the
    message of that guard to standard output and raises [SystemExit]. *)
Theorem least_squares_deterministic (x y : list R) :
  exists (out : list string) (fr : list (string * value))
         (res : result (list R)),
    (forall st,
        least_squares x y st = (mkState (stdout st ++ out) fr, res)) /\
    match res with
    | Done r => out = [] /\ length r = 5%nat
    | Raised (SystemExit _) => exists f, out = [failure_message f]
    | Raised (ValueError _) => out = []
    end.
Proof.
  destruct (Z_le_gt_dec (Fit.N x) 2) as [HN | HN].
  { do 3 eexists. split.
    - intros st. apply least_squares_few. exact HN.
    - exists InsufficientData. reflexivity. }
  assert (HN' : (2 < Fit.N x)%Z) by lia.
  destruct (broadcast Rmult x y) as [xy |] eqn:Hb.
  2:{ exists [].
      do 2 eexists. split.
      - intros st. rewrite app_nil_r. now apply least_squares_mismatch.
      - reflexivity. }
  assert (Hb' : broadcast Rmult x y <> None) by congruence.
  destruct (Rlt_le_dec (Rabs (Fit.denom x)) epsilon) as [Hd | Hd].
  { do 3 eexists. split.
    - intros st. now apply least_squares_degenerate.
    - exists DegenerateInput. reflexivity. }
  exists [].
  do 2 eexists. split.
  - intros st. rewrite app_nil_r. now apply least_squares_returns.
  - split; reflexivity.
Qed.


(** * Further properties of the body *)

(** ** Shapes *)

Lemma broadcast_undefined (f : R -> R -> R) (u v : list R) :
  length u <> length v -> length u <> 1%nat -> length v <> 1%nat ->
  broadcast f u v = None.
Proof.
  intros H1 H2 H3.
  destruct (broadcast f u v) as [l |] eqn:E; [| reflexivity].
  assert (Hd : broadcast f u v <> None) by congruence.
  apply broadcast_defined in Hd. intuition.
Qed.

(** X1: the body never compares [len(x)] with [len(y)].  With more than
    two [x] values and a [y] whose length is neither [len(x)] nor one,
    the product [x * y] of line 32 raises [ValueError]: nothing has been
    printed, [s_x], [s_y] and [s_xx] are bound, [s_xy] and [denom] are
    not, and the second guard is never reached. *)
Theorem shape_mismatch_raises (x y : list R) (st : state) :
  (2 < Spec.N x)%nat ->
  length y <> length x ->
  length y <> 1%nat ->
  snd (least_squares x y st) =
    Raised (ValueError "operands could not be broadcast together") /\
  stdout (fst (least_squares x y st)) = stdout st /\
  bound (locals (fst (least_squares x y st))) =
    ["x"; "y"; "N"; "s_x"; "s_y"; "s_xx"].
Proof.
  intros HN Hxy Hy.
  assert (Hb : broadcast Rmult x y = None).
  { apply broadcast_undefined; unfold Spec.N in HN; try congruence; lia. }
  rewrite least_squares_mismatch by (try apply spec_N_guard; assumption).
  cbn. repeat split; reflexivity.
Qed.

Lemma shape_mismatch_raises_witness :
  snd (least_squares [5; 5; 5] [1; 2] (mkState [] [])) =
    Raised (ValueError "operands could not be broadcast together") /\
  stdout (fst (least_squares [5; 5; 5] [1; 2] (mkState [] []))) = [] /\
  bound (locals (fst (least_squares [5; 5; 5] [1; 2] (mkState [] [])))) =
    ["x"; "y"; "N"; "s_x"; "s_y"; "s_xx"].
Proof.
  apply (shape_mismatch_raises [5; 5; 5] [1; 2] (mkState [] []));
    cbn; [lia | discriminate | discriminate].
Defined.

(** X2: a call returns a result exactly when there are more than two
    [x] values, [y] has the length of [x] or length one, and
    [|denom| >= 0.000001]. *)
Theorem returns_iff_guards_pass (x y : list R) (st : state) :
  (exists st' r, least_squares x y st = (st', Done r)) <->
  ((2 < Spec.N x)%nat /\
   (length y = length x \/ length y = 1%nat) /\
   epsilon <= Rabs (Fit.denom x)).
Proof.
  split.
  - intros (st' & r & H).
    apply least_squares_done_inv in H as (HN & Hb & Hd & _).
    apply spec_N_guard in HN. apply broadcast_defined in Hb.
    repeat split; try assumption.
    unfold Spec.N in HN. destruct Hb as [Hb | [Hb | Hb]]; auto; lia.
  - intros (HN & Hy & Hd).
    do 2 eexists. apply least_squares_returns; try assumption.
    + now apply spec_N_guard.
    + apply broadcast_defined. destruct Hy as [Hy | Hy]; auto.
Qed.

Lemma np_sum_scaled (c : R) (l : list R) :
  np_sum (map (fun e => e * c) l) = c * np_sum l.
Proof.
  induction l as [| v l IH]; cbn.
  - ring.
  - unfold np_sum in IH. rewrite IH. ring.
Qed.

Lemma broadcast_scalar_right (f : R -> R -> R) (u : list R) (c : R) :
  (1 < length u)%nat ->
  broadcast f u [c] = Some (map (fun e => f e c) u).
Proof.
  intros H. unfold broadcast.
  destruct u as [| p [| q u]]; cbn in *; try lia. reflexivity.
Qed.

(** X3: a [y] of length one is not rejected.  It is stretched by
    broadcasting in [x * y], while [s_y] stays the single value [c], so
    with both guards passed the call returns
    [a = c * (s_xx - s_x ^ 2) / denom] and
    [b = c * s_x * (N - 1) / denom], not the fit [a = c], [b = 0] of
    the constant data. *)
Theorem scalar_y_is_broadcast (x : list R) (c : R) (st : state) :
  (2 < Spec.N x)%nat ->
  epsilon <= Rabs (Spec.denom x) ->
  exists sigma sigma_a sigma_b st',
    least_squares x [c] st =
      (st', Done [c * (Spec.s_xx x - Spec.s_x x ^ 2) / Spec.denom x;
                  c * Spec.s_x x * (INR (Spec.N x) - 1) / Spec.denom x;
                  sigma; sigma_a; sigma_b]).
Proof.
  intros HN Hd. rewrite <- denom_agrees in Hd.
  assert (Hb : broadcast Rmult x [c] = Some (map (fun e => e * c) x))
    by (apply broadcast_scalar_right; unfold Spec.N in HN; lia).
  do 3 eexists. eexists.
  rewrite least_squares_returns;
    [| now apply spec_N_guard | congruence | exact Hd].
  assert (Ea : Fit.a x [c]
               = c * (Spec.s_xx x - Spec.s_x x ^ 2) / Spec.denom x).
  { unfold Fit.a, Fit.s_xy, Fit.s_y. rewrite Hb. cbn [Fit.array_of].
    rewrite np_sum_scaled.
    change (np_sum [c]) with (c + 0). change (np_sum x) with (Fit.s_x x).
    rewrite denom_agrees, s_xx_agrees, (s_x_agrees x).
    unfold Rdiv. ring. }
  assert (Eb : Fit.b x [c]
               = c * Spec.s_x x * (INR (Spec.N x) - 1) / Spec.denom x).
  { unfold Fit.b, Fit.s_xy, Fit.s_y. rewrite Hb. cbn [Fit.array_of].
    rewrite np_sum_scaled.
    change (np_sum [c]) with (c + 0). change (np_sum x) with (Fit.s_x x).
    rewrite denom_agrees, N_agrees, (s_x_agrees x).
    unfold Rdiv. ring. }
  rewrite Ea, Eb. reflexivity.
Qed.

Lemma scalar_y_is_broadcast_witness :
  exists sigma sigma_a sigma_b st',
    least_squares [0; 1; 2] [4] (mkState [] []) =
      (st', Done [4 * (Spec.s_xx [0; 1; 2] - Spec.s_x [0; 1; 2] ^ 2)
                    / Spec.denom [0; 1; 2];
                  4 * Spec.s_x [0; 1; 2] * (INR (Spec.N [0; 1; 2]) - 1)
                    / Spec.denom [0; 1; 2];
                  sigma; sigma_a; sigma_b]).
Proof.
  apply (scalar_y_is_broadcast [0; 1; 2] 4 (mkState [] []));
    [on_data | on_data].
Defined.

Example scalar_y_sample :
  Fit.a [0; 1; 2] [4] = - 8 / 3 /\ Fit.b [0; 1; 2] [4] = 4.
Proof. split; fit_values. Qed.

(** ** Data on a line *)

(** The result of a successful call in the terms of the specification. *)
Lemma least_squares_returns_spec (x y : list R) (st : state) :
  length x = length y ->
  (2 < Spec.N x)%nat ->
  epsilon <= Rabs (Spec.denom x) ->
  least_squares x y st =
    (mkState (stdout st) (Fit.frame_all x y),
     Done [Spec.a x y; Spec.b x y; Spec.sigma x y; Spec.sigma_a x y;
           Spec.sigma_b x y]).
Proof.
  intros Hlen HN Hd.
  rewrite <- denom_agrees in Hd. apply spec_N_guard in HN.
  rewrite least_squares_returns by auto using shapes_agree.
  unfold Spec.sigma_a, Spec.sigma_b, Spec.sigma.
  unfold Fit.sigma_a, Fit.sigma_b, Fit.sigma.
  rewrite (rss_agrees x y Hlen), N_minus_two, N_agrees, s_xx_agrees,
    denom_agrees.
  rewrite (a_agrees x y Hlen), (b_agrees x y Hlen).
  reflexivity.
Qed.

Lemma guard_spec_denom_pos (x : list R) :
  epsilon <= Rabs (Spec.denom x) -> 0 < Spec.denom x.
Proof.
  intros H. rewrite <- denom_agrees in *. now apply guard_denom_pos.
Qed.

Section OnALine.

Variables (x : list R) (a0 b0 : R).

Let y := np_affine a0 b0 x.

Lemma line_yi (i : nat) :
  (i < Spec.N x)%nat -> Spec.yi y i = a0 + b0 * Spec.xi x i.
Proof.
  intros Hi. unfold Spec.yi, y, np_affine. now rewrite map_nth_in.
Qed.

Lemma line_s_y : Spec.s_y x y = INR (Spec.N x) * a0 + b0 * Spec.s_x x.
Proof.
  unfold Spec.s_y.
  rewrite (Sigma_ext _ _ (fun i => a0 + b0 * Spec.xi x i))
    by (intros i Hi; now apply line_yi).
  rewrite Sigma_plus, Sigma_const, Sigma_scal. reflexivity.
Qed.

Lemma line_s_xy : Spec.s_xy x y = a0 * Spec.s_x x + b0 * Spec.s_xx x.
Proof.
  unfold Spec.s_xy.
  rewrite (Sigma_ext _ _
    (fun i => a0 * Spec.xi x i + b0 * (Spec.xi x i ^ 2)))
    by (intros i Hi; rewrite line_yi by exact Hi; ring).
  rewrite Sigma_plus, !Sigma_scal. reflexivity.
Qed.

Lemma line_a : Spec.denom x <> 0 -> Spec.a x y = a0.
Proof.
  intros Hd. unfold Spec.a. rewrite line_s_y, line_s_xy.
  unfold Spec.denom in *. field. exact Hd.
Qed.

Lemma line_b : Spec.denom x <> 0 -> Spec.b x y = b0.
Proof.
  intros Hd. unfold Spec.b. rewrite line_s_y, line_s_xy.
  unfold Spec.denom in *. field. exact Hd.
Qed.

Lemma line_rss : Spec.RSS x y a0 b0 = 0.
Proof.
  unfold Spec.RSS.
  rewrite (Sigma_ext _ _ (fun _ => 0))
    by (intros i Hi; rewrite line_yi by exact Hi; ring).
  rewrite Sigma_const. ring.
Qed.

End OnALine.

(** X4: exact recovery.  When the [y] values lie on a line,
    [y = a0 + b0 * x], and both guards pass, the call returns exactly
    [[a0, b0, 0, 0, 0]]. *)
Theorem exact_recovery (x : list R) (a0 b0 : R) (st : state) :
  (2 < Spec.N x)%nat ->
  epsilon <= Rabs (Spec.denom x) ->
  exists st',
    least_squares x (np_affine a0 b0 x) st = (st', Done [a0; b0; 0; 0; 0]).
Proof.
  intros HN Hd.
  pose proof (guard_spec_denom_pos x Hd) as Hpos.
  assert (Hne : Spec.denom x <> 0) by lra.
  eexists.
  rewrite least_squares_returns_spec;
    [| symmetry; apply np_affine_length | exact HN | exact Hd].
  assert (Hs : Spec.sigma x (np_affine a0 b0 x) = 0).
  { unfold Spec.sigma. rewrite line_a, line_b by exact Hne.
    rewrite line_rss. unfold Rdiv. rewrite Rmult_0_l. apply sqrt_0. }
  unfold Spec.sigma_a, Spec.sigma_b. rewrite Hs.
  rewrite line_a, line_b by exact Hne.
  replace (0 ^ 2 * Spec.s_xx x / Spec.denom x) with 0
    by (unfold Rdiv; ring).
  replace (0 ^ 2 * INR (Spec.N x) / Spec.denom x) with 0
    by (unfold Rdiv; ring).
  rewrite sqrt_0. reflexivity.
Qed.

Lemma exact_recovery_witness :
  exists st',
    least_squares [0; 1; 2] (np_affine 7 (- 3) [0; 1; 2]) (mkState [] []) =
      (st', Done [7; - 3; 0; 0; 0]).
Proof.
  apply (exact_recovery [0; 1; 2] 7 (- 3) (mkState [] []));
    [on_data | on_data].
Defined.

(** X5: on a successful call the returned [sigma] is zero exactly when
    every data point lies on the fitted line, [y_i = a + b * x_i]. *)
Theorem sigma_zero_iff_on_line (x y : list R) (st : state) :
  length x = length y ->
  (2 < Spec.N x)%nat ->
  epsilon <= Rabs (Spec.denom x) ->
  exists a b sigma sigma_a sigma_b st',
    least_squares x y st = (st', Done [a; b; sigma; sigma_a; sigma_b]) /\
    (sigma = 0 <->
     forall i, (i < Spec.N x)%nat -> Spec.yi y i = a + b * Spec.xi x i).
Proof.
  intros Hlen HN Hd.
  do 5 eexists. eexists. split.
  - now apply least_squares_returns_spec.
  - assert (HN2 : 0 < INR (Spec.N x) - 2).
    { apply lt_INR in HN. cbn in HN. lra. }
    assert (Hrss : 0 <= Spec.RSS x y (Spec.a x y) (Spec.b x y))
      by (apply Sigma_nonneg; intros i _; apply pow2_ge_0).
    unfold Spec.sigma. split.
    + intros Hs i Hi.
      apply sqrt_eq_0 in Hs; [| now apply div_nonneg].
      assert (H0 : Spec.RSS x y (Spec.a x y) (Spec.b x y) = 0).
      { unfold Rdiv in Hs. apply Rmult_integral in Hs.
        destruct Hs as [Hs | Hs]; [exact Hs |].
        pose proof (Rinv_0_lt_compat _ HN2). lra. }
      pose proof (Sigma_zero_terms _ _
        (fun k _ => pow2_ge_0 (Spec.yi y k
                      - (Spec.a x y + Spec.b x y * Spec.xi x k))) H0 i Hi)
        as Hz.
      cbn beta in Hz. nra.
    + intros Hall.
      replace (Spec.RSS x y (Spec.a x y) (Spec.b x y)) with 0.
      * unfold Rdiv. rewrite Rmult_0_l. apply sqrt_0.
      * unfold Spec.RSS. rewrite (Sigma_ext _ _ (fun _ => 0))
          by (intros i Hi; rewrite Hall by exact Hi; ring).
        rewrite Sigma_const. ring.
Qed.

Lemma sigma_zero_iff_on_line_witness :
  exists a b sigma sigma_a sigma_b st',
    least_squares [0; 1; 2] [1; 3; 6] (mkState [] []) =
      (st', Done [a; b; sigma; sigma_a; sigma_b]) /\
    (sigma = 0 <->
     forall i, (i < Spec.N [0; 1; 2]%R)%nat ->
       Spec.yi [1; 3; 6] i = a + b * Spec.xi [0; 1; 2] i).
Proof.
  apply (sigma_zero_iff_on_line [0; 1; 2] [1; 3; 6] (mkState [] []));
    [reflexivity | on_data | on_data].
Defined.

(** ** Scale of the [x] values *)

Lemma map_length_N (g : R -> R) (x : list R) : Spec.N (map g x) = Spec.N x.
Proof. unfold Spec.N. apply length_map. Qed.

Lemma map_xi (g : R -> R) (x : list R) (i : nat) :
  (i < Spec.N x)%nat -> Spec.xi (map g x) i = g (Spec.xi x i).
Proof. intros Hi. unfold Spec.xi. now apply map_nth_in. Qed.

Section ScaleX.

Variables (x : list R) (k : R).

Let x' := map (fun v => k * v) x.

Lemma scale_x_s_x : Spec.s_x x' = k * Spec.s_x x.
Proof.
  unfold Spec.s_x, x'. rewrite map_length_N.
  rewrite (Sigma_ext _ _ (fun i => k * Spec.xi x i))
    by (intros i Hi; now apply map_xi).
  apply Sigma_scal.
Qed.

Lemma scale_x_s_xx : Spec.s_xx x' = k ^ 2 * Spec.s_xx x.
Proof.
  unfold Spec.s_xx, x'. rewrite map_length_N.
  rewrite (Sigma_ext _ _ (fun i => k ^ 2 * (Spec.xi x i ^ 2)))
    by (intros i Hi; rewrite map_xi by exact Hi; ring).
  apply Sigma_scal.
Qed.

Lemma scale_x_denom : Spec.denom x' = k ^ 2 * Spec.denom x.
Proof.
  unfold Spec.denom. rewrite scale_x_s_x, scale_x_s_xx.
  unfold x'. rewrite map_length_N. ring.
Qed.

End ScaleX.

(** X6: the second guard compares [denom] with a fixed threshold, and
    [denom] grows with the square of the scale of [x].  Multiplying
    every [x] value by [k] multiplies [denom] by [k ^ 2]; when
    [k ^ 2 * denom] falls below [0.000001] the call on the rescaled
    data stops at the second guard, whatever the spread of [x] was. *)
Theorem rescaled_x_hits_guard (x y : list R) (k : R) (st : state) :
  length x = length y ->
  (2 < Spec.N x)%nat ->
  k ^ 2 * Spec.denom x < epsilon ->
  Fit.denom (map (fun v => k * v) x) = k ^ 2 * Fit.denom x /\
  fails_with DegenerateInput st (least_squares (map (fun v => k * v) x) y st).
Proof.
  intros Hlen HN Hd.
  assert (Hden : Fit.denom (map (fun v => k * v) x) = k ^ 2 * Fit.denom x)
    by (rewrite !denom_agrees; apply scale_x_denom).
  split; [exact Hden |].
  rewrite least_squares_degenerate.
  - unfold fails_with. cbn. split; reflexivity.
  - apply spec_N_guard. now rewrite map_length_N.
  - apply shapes_agree. now rewrite length_map.
  - rewrite Hden, denom_agrees.
    pose proof (denom_nonneg x) as H0. pose proof (pow2_ge_0 k) as Hk.
    rewrite Rabs_right; [exact Hd | nra].
Qed.

Lemma rescaled_x_hits_guard_witness :
  Fit.denom (map (fun v => / 10000 * v) [0; 1; 2]) =
    (/ 10000) ^ 2 * Fit.denom [0; 1; 2] /\
  fails_with DegenerateInput (mkState [] [])
    (least_squares (map (fun v => / 10000 * v) [0; 1; 2]) [1; 3; 6]
       (mkState [] [])).
Proof.
  apply (rescaled_x_hits_guard [0; 1; 2] [1; 3; 6] (/ 10000)
           (mkState [] []));
    [reflexivity | on_data | on_data].
Defined.

(** ** Order of the data points *)





Section Reordered.

Variables x y x' y' : list R.
Hypothesis len : length x = length y.
Hypothesis len' : length x' = length y'.
Hypothesis perm : Permutation (combine x y) (combine x' y').














End Reordered.


